(** * Link annotations on document metadata

    A shallow embedding of
    [libs/community/langchain_community/graph_vectorstores/links.py]:
    the frozen dataclass [GraphStoreLink] with its three factories, and the
    two accessors [get_links] and [add_links] that keep the links of a
    document under the metadata key ["links"].

    Python lists are mutable objects that are shared by reference, so lists
    live in a heap and a list value is the address of its object; the
    accessors are computations over that heap and the document. *)

From Stdlib Require Import String ZArith.
From stdpp Require Import base option list strings gmap.

Open Scope string_scope.
Open Scope list_scope.

(** ** The fragment of the Python runtime the module relies on *)

Module Py.

(** Addresses of list objects. *)
Definition loc := positive.

(** Exceptions that the modelled code can raise. *)
Inductive exn : Type :=
| TypeError
| FrozenInstanceError.

(** A call returns, raises, or is stuck.  [Stuck] stands for following an
    address at which the heap holds no object, which no Python run does. *)
Inductive outcome (A : Type) : Type :=
| Returns (a : A)
| Raises (e : exn)
| Stuck.
Arguments Returns {A} a.
Arguments Raises {A} e.
Arguments Stuck {A}.

End Py.
Import Py.

(** ** The dataclass (links.py, lines 7-35) *)

(** [direction] is annotated [Literal["in", "out", "bidir"]]; annotations are
    not enforced when the program runs, so the field holds a string. *)
Record GraphStoreLink : Type := mkGraphStoreLink {
  kind : string;
  direction : string;
  tag : string
}.

(** The values the annotation of [direction] lists. *)
Definition direction_literals : list string := ["in"; "out"; "bidir"].

Definition valid_direction (d : string) : bool :=
  bool_decide (d ∈ direction_literals).

(** The fields in declaration order; none declares a default value. *)
Definition GraphStoreLink_fields : list string := ["kind"; "direction"; "tag"].

(** [@dataclass(frozen=True)]. *)
Definition GraphStoreLink_frozen : bool := true.

(** Binding of the arguments of a call to parameters without defaults:
    positional arguments fill the parameters from the left, the remaining
    parameters are taken from the keyword arguments.  Too many positional
    arguments, a parameter given twice, an unknown keyword and a parameter
    left without a value all make the call fail. *)
Fixpoint bind_params (params args : list string) (kwargs : gmap string string)
  : option (list string) :=
  match params, args with
  | [], [] => if decide (kwargs = ∅) then Some [] else None
  | [], _ :: _ => None
  | p :: ps, a :: args' =>
      match kwargs !! p with
      | Some _ => None
      | None => (a ::.) <$> bind_params ps args' kwargs
      end
  | p :: ps, [] =>
      match kwargs !! p with
      | Some v => (v ::.) <$> bind_params ps [] (delete p kwargs)
      | None => None
      end
  end.

(** The generated [__init__]: binds the three fields and stores them as they
    are given. *)
Definition GraphStoreLink_init (args : list string) (kwargs : gmap string string)
  : outcome GraphStoreLink :=
  match bind_params GraphStoreLink_fields args kwargs with
  | Some [k; d; t] => Returns (mkGraphStoreLink k d t)
  | _ => Raises TypeError
  end.

(** The generated [__eq__] on two instances of the class: the tuples of the
    fields are compared. *)
Definition GraphStoreLink_eq (a b : GraphStoreLink) : bool :=
  String.eqb (kind a) (kind b)
  && String.eqb (direction a) (direction b)
  && String.eqb (tag a) (tag b).

(** The generated [__setattr__]: a frozen dataclass refuses every assignment. *)
Definition GraphStoreLink_setattr (self : GraphStoreLink) (name value : string)
  : outcome GraphStoreLink :=
  if GraphStoreLink_frozen then Raises FrozenInstanceError
  else
    Returns
      (if decide (name = "kind") then mkGraphStoreLink value (direction self) (tag self)
       else if decide (name = "direction") then mkGraphStoreLink (kind self) value (tag self)
       else if decide (name = "tag") then mkGraphStoreLink (kind self) (direction self) value
       else self).

(** The generated [__delattr__]. *)
Definition GraphStoreLink_delattr (self : GraphStoreLink) (name : string)
  : outcome GraphStoreLink :=
  if GraphStoreLink_frozen then Raises FrozenInstanceError else Returns self.

(** What the caller of [GraphStoreLink(kind=..., direction=..., tag=...)] passes. *)
Definition keywords (k d t : string) : gmap string string :=
  <["kind" := k]> (<["direction" := d]> (<["tag" := t]> ∅)).

Definition incoming (kind tag : string) : outcome GraphStoreLink :=
  GraphStoreLink_init [] (keywords kind "in" tag).

Definition outgoing (kind tag : string) : outcome GraphStoreLink :=
  GraphStoreLink_init [] (keywords kind "out" tag).

Definition bidir (kind tag : string) : outcome GraphStoreLink :=
  GraphStoreLink_init [] (keywords kind "bidir" tag).

(** [Link = GraphStoreLink] *)
Abbreviation Link := GraphStoreLink (only parsing).

Definition METADATA_LINKS_KEY : string := "links".

(** ** Values, documents and the heap *)

#[local] Set Warnings "-register-all".

(** The values that a metadata entry or an argument of [add_links] can be. *)
Inductive value : Type :=
| VNone
| VInt (n : Z)
| VStr (s : string)
| VLink (l : GraphStoreLink)
| VTuple (items : list value)
| VList (a : loc).

(** [langchain_core.documents.Document], as far as the module uses it. *)
Record Document : Type := mkDocument {
  page_content : string;
  metadata : gmap string value
}.

Record state : Type := mkState {
  doc : Document;
  heap : gmap loc (list value)
}.

(** [isinstance(v, list)] *)
Definition is_list (v : value) : bool :=
  match v with VList _ => true | _ => false end.

(** [isinstance(v, Iterable)] *)
Definition is_iterable (v : value) : bool :=
  match v with
  | VStr _ | VTuple _ | VList _ => true
  | VNone | VInt _ | VLink _ => false
  end.

(** The characters of a string, each as a string of length one. *)
Fixpoint chars (s : string) : list value :=
  match s with
  | EmptyString => []
  | String c s' => VStr (String c EmptyString) :: chars s'
  end.

(** The items that iterating over [v] yields. *)
Definition py_iter (v : value) (h : gmap loc (list value)) : outcome (list value) :=
  match v with
  | VList a => match h !! a with Some l => Returns l | None => Stuck end
  | VTuple items => Returns items
  | VStr s => Returns (chars s)
  | VNone | VInt _ | VLink _ => Raises TypeError
  end.

(** *** Computations over the document and the heap *)

Definition M (A : Type) : Type := state → outcome A * state.

Definition ret {A} (a : A) : M A := λ s, (Returns a, s).

Definition bind {A B} (m : M A) (k : A → M B) : M B :=
  λ s, match m s with
       | (Returns a, s') => k a s'
       | (Raises e, s') => (Raises e, s')
       | (Stuck, s') => (Stuck, s')
       end.

Notation "'let*' x ':=' m 'in' k" := (bind m (λ x, k))
  (at level 10, x name, m at level 100, k at level 200).

Definition lift {A} (f : gmap loc (list value) → outcome A) : M A :=
  λ s, (f (heap s), s).

(** A new list object holding [l]; its address is not in use. *)
Definition new_list (l : list value) : M loc :=
  λ s, let a := fresh (dom (heap s)) in
       (Returns a, mkState (doc s) (<[a := l]> (heap s))).

(** [doc.metadata.setdefault(key, default)] *)
Definition metadata_setdefault (key : string) (default : value) : M value :=
  λ s, match metadata (doc s) !! key with
       | Some v => (Returns v, s)
       | None =>
           (Returns default,
            mkState (mkDocument (page_content (doc s))
                                (<[key := default]> (metadata (doc s))))
                    (heap s))
       end.

(** [doc.metadata[key] = v] *)
Definition metadata_setitem (key : string) (v : value) : M unit :=
  λ s, (Returns tt,
        mkState (mkDocument (page_content (doc s)) (<[key := v]> (metadata (doc s))))
                (heap s)).

(** [list(v)]: a new list object with the items of [v]. *)
Definition py_list (v : value) : M loc :=
  let* items := lift (py_iter v) in new_list items.

(** [target.extend(v)]: the items of [v] are read, then stored after those of
    the target (so extending a list by itself doubles it). *)
Definition list_extend (target : loc) (v : value) : M unit :=
  let* items := lift (py_iter v) in
  λ s, match heap s !! target with
       | Some l => (Returns tt, mkState (doc s) (<[target := l ++ items]> (heap s)))
       | None => (Stuck, s)
       end.

(** [target.append(v)] *)
Definition list_append (target : loc) (v : value) : M unit :=
  λ s, match heap s !! target with
       | Some l => (Returns tt, mkState (doc s) (<[target := l ++ [v]]> (heap s)))
       | None => (Stuck, s)
       end.

(** [for x in xs: body(x)] over the tuple of arguments. *)
Fixpoint for_each {A} (xs : list A) (body : A → M unit) : M unit :=
  match xs with
  | [] => ret tt
  | x :: xs' => let* _ := body x in for_each xs' body
  end.

(** ** The accessors (links.py, lines 43-75) *)

(** [get_links(doc)], the document being the one of the state.  The result is
    the address of the list object, not a copy of its items. *)
Definition get_links : M loc :=
  let* empty := new_list [] in
  let* links := metadata_setdefault METADATA_LINKS_KEY (VList empty) in
  match links with
  | VList a => ret a
  | _ =>
      let* a := py_list links in
      let* _ := metadata_setitem METADATA_LINKS_KEY (VList a) in
      ret a
  end.

(** [add_links(doc, *links)] *)
Definition add_links (links : list value) : M unit :=
  let* links_in_metadata := get_links in
  for_each links (λ link,
    if is_iterable link then list_extend links_in_metadata link
    else list_append links_in_metadata link).

(** ** Specification vocabulary *)

(** What one argument of [add_links] contributes, read in the heap [h]: the
    items of an iterable, the argument itself otherwise. *)
Definition items_of (h : gmap loc (list value)) (v : value) : list value :=
  if is_iterable v then
    match py_iter v h with Returns l => l | _ => [] end
  else [v].

(** The arguments flattened by one level, from left to right. *)
Definition flatten (h : gmap loc (list value)) (links : list value) : list value :=
  concat (items_of h <$> links).

(** An argument can be read in [h] independently of the list object [a]: a
    list argument is an object of [h] other than [a]. *)
Definition readable (h : gmap loc (list value)) (a : loc) (v : value) : Prop :=
  match v with
  | VList b => b ≠ a ∧ is_Some (h !! b)
  | _ => True
  end.

(** A list argument is an object of [h]; nothing is asked of other values. *)
Definition allocated (h : gmap loc (list value)) (v : value) : Prop :=
  match v with
  | VList b => is_Some (h !! b)
  | _ => True
  end.

(** [h'] still holds every list object of [h], with the same items. *)
Definition keeps (h h' : gmap loc (list value)) : Prop :=
  ∀ b l, h !! b = Some l → h' !! b = Some l.


(** The value that argument number [i], named [name], receives in a call. *)
Definition supplied (i : nat) (name : string)
    (args : list string) (kwargs : gmap string string) : option string :=
  match args !! i with
  | Some v => Some v
  | None => kwargs !! name
  end.

(** The body of the loop of [add_links]. *)
Definition add_one (target : loc) (link : value) : M unit :=
  if is_iterable link then list_extend target link else list_append target link.

(** ** Sample states *)

Definition sample_out : value := VLink (mkGraphStoreLink "k" "out" "t").
Definition sample_in : value := VLink (mkGraphStoreLink "k" "in" "t").
Definition sample_bidir : value := VLink (mkGraphStoreLink "url" "bidir" "u").
Definition sample_kw : value := VLink (mkGraphStoreLink "kw" "in" "w").

(** A document without links, and no list object. *)
Definition blank : state := mkState (mkDocument "text" {[ "source" := VStr "a.txt" ]}) ∅.

(** A document that already has one link, in the list object 1; the list
    object 2 holds two more links. *)
Definition linked : state :=
  mkState (mkDocument "text" {[ "links" := VList 1%positive; "source" := VStr "a.txt" ]})
          {[ 1%positive := [sample_out]; 2%positive := [sample_in; sample_bidir] ]}.


(** A document whose links are kept in a tuple. *)
Definition tupled : state :=
  mkState (mkDocument "text" {[ "links" := VTuple [sample_out; sample_in] ]}) ∅.

(** A document whose entry under ["links"] is a number. *)
Definition broken : state :=
  mkState (mkDocument "text" {[ "links" := VInt 7 ]}) ∅.

(** ** Auxiliary results on the accessors *)

Section get_links_facts.
Variable s : state.

Local Abbreviation a0 := (fresh (dom (heap s))).
Local Abbreviation h0 := (<[a0 := []]> (heap s)).
Local Abbreviation a1 := (fresh (dom h0)).
Local Abbreviation md := (metadata (doc s)).

Lemma fresh_unused : heap s !! a0 = None.
Proof. apply not_elem_of_dom, is_fresh. Qed.

Lemma fresh_unused_next : h0 !! a1 = None.
Proof. apply not_elem_of_dom, is_fresh. Qed.

Lemma kept_by_new_list b l : heap s !! b = Some l → h0 !! b = Some l.
Proof.
  intros Hb. rewrite lookup_insert_ne; [done |].
  intros <-. pose proof fresh_unused. congruence.
Qed.

(** [get_links] by cases on the entry under ["links"]. *)
Lemma get_links_unfold :
  get_links s =
    match md !! METADATA_LINKS_KEY with
    | None =>
        (Returns a0,
         mkState (mkDocument (page_content (doc s))
                             (<[METADATA_LINKS_KEY := VList a0]> md)) h0)
    | Some (VList a) => (Returns a, mkState (doc s) h0)
    | Some v =>
        match py_iter v h0 with
        | Returns items =>
            (Returns a1,
             mkState (mkDocument (page_content (doc s))
                                 (<[METADATA_LINKS_KEY := VList a1]> md))
                     (<[a1 := items]> h0))
        | Raises e => (Raises e, mkState (doc s) h0)
        | Stuck => (Stuck, mkState (doc s) h0)
        end
    end.
Proof.
  unfold get_links, bind, new_list, metadata_setdefault; simpl.
  destruct (md !! METADATA_LINKS_KEY) as [v|] eqn:Hv; [| done].
  destruct v; try done;
    unfold py_list, bind, lift, new_list, metadata_setitem, ret; simpl; done.
Qed.

End get_links_facts.

(** Iterating over a value that is not a list does not read the heap. *)
Lemma py_iter_not_list v h h' : is_list v = false → py_iter v h = py_iter v h'.
Proof. by destruct v. Qed.

(** [get_links] leaves the list objects of the heap as they are, and every
    entry of the metadata other than ["links"]. *)
Lemma get_links_frame s r s' :
  get_links s = (r, s') →
  page_content (doc s') = page_content (doc s)
  ∧ (∀ k, k ≠ METADATA_LINKS_KEY → metadata (doc s') !! k = metadata (doc s) !! k)
  ∧ (∀ b l, heap s !! b = Some l → heap s' !! b = Some l).
Proof.
  rewrite get_links_unfold. intros Hg.
  assert (Hnew : ∀ b l items, heap s !! b = Some l →
            <[fresh (dom (<[fresh (dom (heap s)) := []]> (heap s))) := items]>
              (<[fresh (dom (heap s)) := []]> (heap s)) !! b = Some l).
  { intros b l items Hb. apply (kept_by_new_list s) in Hb.
    rewrite lookup_insert_ne; [done |].
    intros <-. pose proof (fresh_unused_next s). congruence. }
  destruct (metadata (doc s) !! METADATA_LINKS_KEY) as [v|] eqn:Hv;
    [destruct v |]; simpl in Hg; injection Hg as <- <-; simpl.
  all: split_and!; try done.
  all: first [ intros k Hk; by rewrite lookup_insert_ne
             | apply kept_by_new_list
             | intros b l Hb; exact (Hnew b l _ Hb) ].
Qed.

(** When [get_links] returns, the entry under ["links"] is the returned list
    object. *)
Lemma get_links_entry s a s' :
  get_links s = (Returns a, s') →
  metadata (doc s') !! METADATA_LINKS_KEY = Some (VList a).
Proof.
  rewrite get_links_unfold.
  destruct (metadata (doc s) !! METADATA_LINKS_KEY) as [v|] eqn:Hv;
    [destruct v |]; simpl; intros [= <- <-]; simpl;
    by rewrite ?lookup_insert_eq.
Qed.

(** A second [get_links] finds the list in place. *)
Lemma get_links_again s a :
  metadata (doc s) !! METADATA_LINKS_KEY = Some (VList a) →
  get_links s = (Returns a, mkState (doc s) (<[fresh (dom (heap s)) := []]> (heap s))).
Proof. intros Hv. by rewrite get_links_unfold, Hv. Qed.

Lemma add_links_unfold links :
  add_links links = (let* a := get_links in for_each links (add_one a)).
Proof. reflexivity. Qed.

Lemma items_of_insert h a l v :
  readable h a v → items_of (<[a := l]> h) v = items_of h v.
Proof.
  destruct v; try done. intros [Hne _].
  unfold items_of; simpl. by rewrite lookup_insert_ne.
Qed.

Lemma readable_insert h a l v : readable h a v → readable (<[a := l]> h) a v.
Proof.
  destruct v; try done. intros [Hne Hb]. split; [done |].
  by rewrite lookup_insert_ne.
Qed.

(** One argument is added at the end of the target. *)
Lemma add_one_spec d h a old v :
  h !! a = Some old → readable h a v →
  add_one a v (mkState d h) = (Returns tt, mkState d (<[a := old ++ items_of h v]> h)).
Proof.
  intros Ha Hv. unfold add_one, items_of.
  destruct v; simpl;
    unfold list_extend, list_append, bind, lift; simpl; rewrite ?Ha; try done.
  destruct Hv as [_ [l Hl]]. by rewrite Hl.
Qed.

(** The loop adds the arguments from left to right. *)
Lemma for_each_add_one d a links : ∀ h old,
  h !! a = Some old → Forall (readable h a) links →
  for_each links (add_one a) (mkState d h)
  = (Returns tt, mkState d (<[a := old ++ flatten h links]> h)).
Proof.
  induction links as [| v links IH]; intros h old Ha Hall.
  - unfold flatten; simpl. rewrite app_nil_r, insert_id; done.
  - apply Forall_cons in Hall as [Hv Hall]. simpl. unfold bind.
    rewrite (add_one_spec d h a old v Ha Hv).
    rewrite (IH _ (old ++ items_of h v)).
    + rewrite insert_insert_eq. do 3 f_equal.
      unfold flatten; simpl. rewrite <- app_assoc. do 3 f_equal.
      apply Forall_fmap_ext. eapply Forall_impl; [exact Hall |].
      intros x Hx. by apply items_of_insert.
    + by rewrite lookup_insert_eq.
    + eapply Forall_impl; [exact Hall |]. intros x. apply readable_insert.
Qed.

(** Whatever an argument is, adding it touches the target only. *)
Lemma add_one_frame a v s r s' :
  add_one a v s = (r, s') →
  doc s' = doc s ∧ ∀ b, b ≠ a → heap s' !! b = heap s !! b.
Proof.
  unfold add_one, list_extend, list_append, bind, lift.
  destruct (is_iterable v); [destruct (py_iter v (heap s)) |];
    destruct (heap s !! a); intros [= <- <-]; simpl; split; try done;
    intros b Hb; by rewrite lookup_insert_ne.
Qed.

Lemma for_each_frame a links : ∀ s r s',
  for_each links (add_one a) s = (r, s') →
  doc s' = doc s ∧ ∀ b, b ≠ a → heap s' !! b = heap s !! b.
Proof.
  induction links as [| v links IH]; intros s r s'; simpl.
  - by intros [= <- <-].
  - unfold bind. destruct (add_one a v s) as [r1 s1] eqn:H1.
    apply add_one_frame in H1 as [Hd Hh].
    destruct r1; [| by intros [= <- <-] ..].
    intros [Hd' Hh']%IH. split; [congruence |].
    intros b Hb. by rewrite Hh', Hh.
Qed.

(** [add_links] on a state whose [get_links] returns the list [a]. *)
Lemma add_links_spec s a s1 old links :
  get_links s = (Returns a, s1) →
  heap s1 !! a = Some old →
  Forall (readable (heap s) a) links →
  add_links links s
  = (Returns tt, mkState (doc s1) (<[a := old ++ flatten (heap s) links]> (heap s1))).
Proof.
  intros Hg Ha Hall. rewrite add_links_unfold. unfold bind. rewrite Hg.
  pose proof (get_links_frame _ _ _ Hg) as (_ & _ & Hkept).
  assert (Hall1 : Forall (readable (heap s1) a) links).
  { eapply Forall_impl; [exact Hall |]. intros [] Hx; try done.
    destruct Hx as [Hne [l Hl]]. split; [done |]. eauto. }
  destruct s1 as [d1 h1]; simpl in *.
  rewrite (for_each_add_one d1 a links h1 old Ha Hall1).
  do 4 f_equal. unfold flatten. f_equal.
  apply Forall_fmap_ext. eapply Forall_impl; [exact Hall |].
  intros [] Hx; try done. destruct Hx as [Hne [l Hl]].
  unfold items_of; simpl. by rewrite Hl, (Hkept _ _ Hl).
Qed.

(** ** Results on the dataclass *)

(** A call of the class either returns an instance or raises [TypeError]. *)
Lemma init_outcome args kwargs :
  (∃ l, GraphStoreLink_init args kwargs = Returns l)
  ∨ GraphStoreLink_init args kwargs = Raises TypeError.
Proof.
  unfold GraphStoreLink_init.
  destruct (bind_params GraphStoreLink_fields args kwargs) as [[| k [| d [| t [| ? ?]]]] |];
    eauto.
Qed.

(** The fields of the instance are the values the call supplied. *)
Lemma init_supplied args kwargs l :
  GraphStoreLink_init args kwargs = Returns l →
  supplied 0 "kind" args kwargs = Some (kind l)
  ∧ supplied 1 "direction" args kwargs = Some (direction l)
  ∧ supplied 2 "tag" args kwargs = Some (tag l).
Proof.
  unfold GraphStoreLink_init, GraphStoreLink_fields, supplied.
  destruct args as [| a1 [| a2 [| a3 [| a4 rest]]]]; simpl;
    repeat match goal with
      | |- context [ delete ?p ?m !! ?q ] =>
          rewrite (lookup_delete_ne m p q) by done
      | |- context [ ?m !! ?p ] =>
          lazymatch m with
          | delete _ _ => fail
          | _ => destruct (m !! p) eqn:?; simpl
          end
      | |- context [ decide ?P ] => destruct (decide P); simpl
      end;
    try discriminate; intros [= <-]; simpl; done.
Qed.

(** Counterexample to C4: a direction that is none of the three literal
    values is accepted, and the instance carries it. *)
Lemma init_accepts_unlisted_direction :
  valid_direction "sideways" = false
  ∧ GraphStoreLink_init ["k"; "sideways"; "t"] ∅
    = Returns (mkGraphStoreLink "k" "sideways" "t")
  ∧ ¬ (∀ k d t, valid_direction d = false →
         ∃ e, GraphStoreLink_init [k; d; t] ∅ = Raises e).
Proof.
  split_and!; [done | done |].
  intros Hclaim. destruct (Hclaim "k" "sideways" "t") as [e He]; [done |].
  vm_compute in He. discriminate.
Qed.

(** C4, as amended: construction checks no direction.  For every kind, tag
    and direction string, valid or not, constructing a link with the three
    fields given (by position or by keyword) returns the link that stores
    the direction unchanged; so it succeeds in particular for the three
    literal values, and it never raises on account of the direction. *)
Theorem init_stores_any_direction :
  ∀ k d t,
    GraphStoreLink_init [k; d; t] ∅ = Returns (mkGraphStoreLink k d t)
    ∧ GraphStoreLink_init [] (keywords k d t) = Returns (mkGraphStoreLink k d t).
Proof. intros k d t. split; reflexivity. Qed.

(** C7: the three factories return what direct construction with the
    direction "in", "out" and "bidir" returns, for all strings [k] and [t];
    the two links are also equal for [__eq__].  The factories are functions
    of their two arguments alone: they take and give back no state. *)
Theorem factories_agree_with_constructor :
  ∀ k t,
    (incoming k t = GraphStoreLink_init [k; "in"; t] ∅
     ∧ incoming k t = Returns (mkGraphStoreLink k "in" t))
    ∧ (outgoing k t = GraphStoreLink_init [k; "out"; t] ∅
       ∧ outgoing k t = Returns (mkGraphStoreLink k "out" t))
    ∧ (bidir k t = GraphStoreLink_init [k; "bidir"; t] ∅
       ∧ bidir k t = Returns (mkGraphStoreLink k "bidir" t))
    ∧ (∀ l, GraphStoreLink_eq l l = true).
Proof.
  intros k t. split_and!; try reflexivity.
  intros [k' d' t']. unfold GraphStoreLink_eq; simpl.
  by rewrite !String.eqb_refl.
Qed.

(** C8: a link cannot be changed after construction (assigning to or
    deleting any attribute raises and yields no changed link); [__eq__]
    holds exactly when the three fields are pairwise equal, so links that
    differ in one field are unequal; and construction returns only when all
    three fields are supplied, with the supplied values: an omitted field
    makes it raise, there is no default. *)
Theorem link_frozen_eq_mandatory :
  (∀ l name v,
      GraphStoreLink_setattr l name v = Raises FrozenInstanceError
      ∧ GraphStoreLink_delattr l name = Raises FrozenInstanceError)
  ∧ (∀ a b,
        GraphStoreLink_eq a b = true
        ↔ kind a = kind b ∧ direction a = direction b ∧ tag a = tag b)
  ∧ (∀ a b, GraphStoreLink_eq a b = true ↔ a = b)
  ∧ (∀ k d t x,
        (x ≠ k → GraphStoreLink_eq (mkGraphStoreLink k d t) (mkGraphStoreLink x d t) = false)
        ∧ (x ≠ d → GraphStoreLink_eq (mkGraphStoreLink k d t) (mkGraphStoreLink k x t) = false)
        ∧ (x ≠ t → GraphStoreLink_eq (mkGraphStoreLink k d t) (mkGraphStoreLink k d x) = false))
  ∧ (∀ args kwargs l,
        GraphStoreLink_init args kwargs = Returns l →
        supplied 0 "kind" args kwargs = Some (kind l)
        ∧ supplied 1 "direction" args kwargs = Some (direction l)
        ∧ supplied 2 "tag" args kwargs = Some (tag l))
  ∧ (∀ args kwargs i f,
        GraphStoreLink_fields !! i = Some f →
        supplied i f args kwargs = None →
        GraphStoreLink_init args kwargs = Raises TypeError).
Proof.
  assert (Heq : ∀ a b, GraphStoreLink_eq a b = true
                       ↔ kind a = kind b ∧ direction a = direction b ∧ tag a = tag b).
  { intros a b. unfold GraphStoreLink_eq.
    rewrite !andb_true_iff, !String.eqb_eq. tauto. }
  assert (Hne : ∀ a b, (kind a ≠ kind b ∨ direction a ≠ direction b ∨ tag a ≠ tag b) →
                       GraphStoreLink_eq a b = false).
  { intros a b Hd. apply not_true_iff_false. rewrite Heq. tauto. }
  split_and!.
  - done.
  - exact Heq.
  - intros [k d t] [k' d' t']. rewrite Heq; simpl.
    split; [by intros (-> & -> & ->) | by intros [= -> -> ->]].
  - intros k d t x. split_and!; intros Hx; apply Hne; simpl; auto.
  - exact init_supplied.
  - intros args kwargs i f Hf Hnone.
    destruct (init_outcome args kwargs) as [[l Hl] | Hr]; [| done].
    apply init_supplied in Hl as (H0 & H1 & H2).
    destruct i as [| [| [| i]]]; simpl in Hf; [| | | done];
      injection Hf as <-; congruence.
Qed.

(** ** Results on the accessors *)

(** C2: on a document without an entry under "links", [get_links] returns a
    list that is empty, and afterwards the metadata binds "links" to that
    very list; the list is a new object and the rest of the metadata is as
    before. *)
Theorem get_links_creates_entry s :
  metadata (doc s) !! METADATA_LINKS_KEY = None →
  ∃ a s',
    get_links s = (Returns a, s')
    ∧ heap s' !! a = Some []
    ∧ metadata (doc s') !! METADATA_LINKS_KEY = Some (VList a)
    ∧ metadata (doc s') = <[METADATA_LINKS_KEY := VList a]> (metadata (doc s))
    ∧ heap s !! a = None.
Proof.
  intros Hv. rewrite get_links_unfold, Hv. eexists _, _.
  split; [reflexivity |]. simpl.
  rewrite !lookup_insert_eq. split_and!; try done. apply fresh_unused.
Qed.

Lemma get_links_creates_entry_witness :
  metadata (doc blank) !! METADATA_LINKS_KEY = None
  ∧ ∃ a s',
      get_links blank = (Returns a, s')
      ∧ heap s' !! a = Some []
      ∧ metadata (doc s') !! METADATA_LINKS_KEY = Some (VList a)
      ∧ metadata (doc s') = <[METADATA_LINKS_KEY := VList a]> (metadata (doc blank))
      ∧ heap blank !! a = None.
Proof.
  split; [reflexivity |]. apply (get_links_creates_entry blank). reflexivity.
Defined.

(** C5: when the entry under "links" is an iterable that is not a list,
    [get_links] returns a new list holding the items of the iterable in
    their order, and the metadata binds "links" to that list in place of the
    iterable. *)
Theorem get_links_converts_iterable s v items :
  metadata (doc s) !! METADATA_LINKS_KEY = Some v →
  is_list v = false →
  py_iter v (heap s) = Returns items →
  ∃ a s',
    get_links s = (Returns a, s')
    ∧ heap s' !! a = Some items
    ∧ metadata (doc s') = <[METADATA_LINKS_KEY := VList a]> (metadata (doc s))
    ∧ metadata (doc s') !! METADATA_LINKS_KEY = Some (VList a)
    ∧ heap s !! a = None.
Proof.
  intros Hv Hl Hit. rewrite get_links_unfold, Hv.
  rewrite (py_iter_not_list v _ (heap s) Hl), Hit.
  destruct v; try discriminate; (eexists _, _; split; [reflexivity |]; simpl;
    rewrite !lookup_insert_eq; split_and!; try done;
    destruct (heap s !! fresh (dom (<[fresh (dom (heap s)) := []]> (heap s))))
      as [l|] eqn:Hl'; [| done];
    apply kept_by_new_list in Hl'; by rewrite fresh_unused_next in Hl').
Qed.

Lemma get_links_converts_iterable_witness :
  metadata (doc tupled) !! METADATA_LINKS_KEY = Some (VTuple [sample_out; sample_in])
  ∧ is_list (VTuple [sample_out; sample_in]) = false
  ∧ py_iter (VTuple [sample_out; sample_in]) (heap tupled) = Returns [sample_out; sample_in]
  ∧ ∃ a s',
      get_links tupled = (Returns a, s')
      ∧ heap s' !! a = Some [sample_out; sample_in]
      ∧ metadata (doc s')
        = <[METADATA_LINKS_KEY := VList a]> (metadata (doc tupled))
      ∧ metadata (doc s') !! METADATA_LINKS_KEY = Some (VList a)
      ∧ heap tupled !! a = None.
Proof.
  split_and!; [reflexivity | reflexivity | reflexivity |].
  apply (get_links_converts_iterable tupled (VTuple [sample_out; sample_in]));
    reflexivity.
Defined.

(** On a number under "links", [get_links] raises and changes no entry. *)
Example get_links_broken :
  ∃ s', get_links broken = (Raises TypeError, s') ∧ doc s' = doc broken.
Proof. eexists. split; [vm_compute; reflexivity | reflexivity]. Qed.

(** C6: [get_links] raises exactly when the entry under "links" is a value
    that is not iterable, and then it raises [TypeError] with the metadata
    as it was; in every other case it returns (it is never stuck). *)
Theorem get_links_raises_iff_not_iterable s :
  (∀ e, (get_links s).1 = Raises e
        ↔ e = TypeError
          ∧ ∃ v, metadata (doc s) !! METADATA_LINKS_KEY = Some v
                 ∧ is_iterable v = false)
  ∧ (get_links s).1 ≠ Stuck
  ∧ (∀ e, (get_links s).1 = Raises e → doc (get_links s).2 = doc s)
  ∧ ((∀ v, metadata (doc s) !! METADATA_LINKS_KEY = Some v → is_iterable v = true)
     → ∃ a, (get_links s).1 = Returns a).
Proof.
  rewrite get_links_unfold.
  destruct (metadata (doc s) !! METADATA_LINKS_KEY) as [v|] eqn:Hv;
    [destruct v |]; simpl; split_and!; try done; eauto;
    try (intros e; split; [by intros [= <-]; eauto | by intros [-> _]]);
    try (intros e; split; [done | by intros [_ (v & [= <-] & ?)]]);
    try (intros e; split; [done | by intros [_ (v & ? & ?)]]);
    try (intros Hall; by specialize (Hall _ eq_refl)).
Qed.




(** C3: the list that [get_links] returns is the object the metadata holds
    under "links": a second [get_links] returns the same object and leaves
    the document and the list objects as they are, and after a later
    [add_links] the metadata still holds that object, whose items, read
    through the address returned before, are the former items followed by
    the added ones. *)
Theorem get_links_returns_alias s a s1 :
  get_links s = (Returns a, s1) →
  metadata (doc s1) !! METADATA_LINKS_KEY = Some (VList a)
  ∧ (∃ s2,
        get_links s1 = (Returns a, s2)
        ∧ doc s2 = doc s1
        ∧ (∀ b l, heap s1 !! b = Some l → heap s2 !! b = Some l))
  ∧ (∀ old links,
        heap s1 !! a = Some old →
        Forall (readable (heap s1) a) links →
        ∃ s3,
          add_links links s1 = (Returns tt, s3)
          ∧ metadata (doc s3) !! METADATA_LINKS_KEY = Some (VList a)
          ∧ heap s3 !! a = Some (old ++ flatten (heap s1) links)).
Proof.
  intros Hg. pose proof (get_links_entry _ _ _ Hg) as Hentry.
  pose proof (get_links_again _ _ Hentry) as Hagain.
  split_and!; [done | |].
  - eexists. split; [exact Hagain |]. split; [done |].
    intros b l Hb. by apply (get_links_frame _ _ _ Hagain).
  - intros old links Ha Hall.
    pose proof (proj2 (proj2 (get_links_frame _ _ _ Hagain)) _ _ Ha) as Ha'.
    eexists. split; [exact (add_links_spec _ _ _ _ _ Hagain Ha' Hall) |].
    simpl. by rewrite lookup_insert_eq.
Qed.

Lemma get_links_returns_alias_witness :
  get_links blank
  = (Returns 1%positive,
     mkState (mkDocument "text"
                (<["links" := VList 1%positive]> (metadata (doc blank))))
             {[ 1%positive := [] ]})
  ∧ ∃ s3,
      add_links [sample_out]
        (mkState (mkDocument "text"
                    (<["links" := VList 1%positive]> (metadata (doc blank))))
                 {[ 1%positive := [] ]})
      = (Returns tt, s3)
      ∧ metadata (doc s3) !! METADATA_LINKS_KEY = Some (VList 1%positive)
      ∧ heap s3 !! 1%positive = Some [sample_out].
Proof.
  assert (Hg : get_links blank
               = (Returns 1%positive,
                  mkState (mkDocument "text"
                             (<["links" := VList 1%positive]> (metadata (doc blank))))
                          {[ 1%positive := [] ]}))
    by (vm_compute; reflexivity).
  split; [exact Hg |].
  apply (proj2 (proj2 (get_links_returns_alias blank 1%positive _ Hg)) [] [sample_out]).
  - reflexivity.
  - repeat constructor.
Defined.

(** After [add_links] has returned, "links" is bound to a list. *)
Lemma add_links_entry links s s1 :
  add_links links s = (Returns tt, s1) →
  ∃ a, metadata (doc s1) !! METADATA_LINKS_KEY = Some (VList a).
Proof.
  rewrite add_links_unfold. unfold bind.
  destruct (get_links s) as [[a | e |] s0] eqn:Hg; [| done ..].
  intros [Hd _]%for_each_frame. exists a.
  rewrite Hd. by apply (get_links_entry s).
Qed.

(** C9: after a first [add_links] has returned, leaving the items [seq1] in
    the list of links, a second [add_links] returns and leaves in the same
    list all of [seq1], unchanged and in its order, followed by the links of
    the second call: nothing is removed, reordered or merged. *)
Theorem add_links_cumulative links1 s s1 :
  add_links links1 s = (Returns tt, s1) →
  ∃ a,
    metadata (doc s1) !! METADATA_LINKS_KEY = Some (VList a)
    ∧ ∀ seq1 links2,
        heap s1 !! a = Some seq1 →
        Forall (readable (heap s1) a) links2 →
        ∃ s2,
          add_links links2 s1 = (Returns tt, s2)
          ∧ metadata (doc s2) !! METADATA_LINKS_KEY = Some (VList a)
          ∧ heap s2 !! a = Some (seq1 ++ flatten (heap s1) links2)
          ∧ doc s2 = doc s1.
Proof.
  intros [a Hentry]%add_links_entry. exists a. split; [done |].
  intros seq1 links2 Ha Hall.
  pose proof (get_links_again _ _ Hentry) as Hagain.
  pose proof (proj2 (proj2 (get_links_frame _ _ _ Hagain)) _ _ Ha) as Ha'.
  eexists. split; [exact (add_links_spec _ _ _ _ _ Hagain Ha' Hall) |].
  simpl. by rewrite lookup_insert_eq.
Qed.

Lemma add_links_cumulative_witness :
  ∃ s1,
    add_links [sample_kw; VTuple [sample_in; sample_in]] blank = (Returns tt, s1)
    ∧ heap s1 !! 1%positive = Some [sample_kw; sample_in; sample_in]
    ∧ ∃ s2,
        add_links [sample_in; sample_out] s1 = (Returns tt, s2)
        ∧ heap s2 !! 1%positive
          = Some [sample_kw; sample_in; sample_in; sample_in; sample_out].
Proof.
  eexists. split; [vm_compute; reflexivity |]. split; [reflexivity |].
  destruct (add_links_cumulative [sample_kw; VTuple [sample_in; sample_in]] blank _ eq_refl)
    as (a & Hentry & Hsecond).
  injection Hentry as <-.
  destruct (Hsecond [sample_kw; sample_in; sample_in] [sample_in; sample_out]
              eq_refl ltac:(repeat constructor))
    as (s2 & Hadd & _ & Hitems & _).
  exists s2. split; [exact Hadd | exact Hitems].
Defined.




(** An argument that is the document's own list of links is read when its
    turn comes, after the arguments before it have been added. *)
Example add_links_own_list :
  ∃ s', add_links [sample_in; VList 1%positive] linked = (Returns tt, s')
        ∧ heap s' !! 1%positive = Some [sample_out; sample_in; sample_out; sample_in].
Proof. eexists. split; [vm_compute; reflexivity | reflexivity]. Qed.

(** ** Further results on the accessors *)

Lemma for_each_app {A} (xs ys : list A) (body : A → M unit) : ∀ s,
  for_each (xs ++ ys) body s
  = match for_each xs body s with
    | (Returns _, s') => for_each ys body s'
    | (Raises e, s') => (Raises e, s')
    | (Stuck, s') => (Stuck, s')
    end.
Proof.
  induction xs as [| x xs IH]; intros s; simpl; [done |].
  unfold bind. destruct (body x s) as [[[] | e |] s1]; [apply IH | done ..].
Qed.

Lemma keeps_new_list s : keeps (heap s) (<[fresh (dom (heap s)) := []]> (heap s)).
Proof. intros b l. apply kept_by_new_list. Qed.

Lemma readable_keeps h h' a v : keeps h h' → readable h a v → readable h' a v.
Proof.
  intros Hk. destruct v; try done. intros [Hne [l Hl]]. split; [done |]. eauto.
Qed.

Lemma items_of_keeps h h' v : keeps h h' → allocated h v → items_of h' v = items_of h v.
Proof.
  intros Hk. destruct v; try done. intros [l Hl].
  unfold items_of; simpl. by rewrite Hl, (Hk _ _ Hl).
Qed.

Lemma readable_allocated h a v : readable h a v → allocated h v.
Proof. destruct v; try done. by intros [_ ?]. Qed.

Lemma flatten_keeps h h' links :
  keeps h h' → Forall (allocated h) links → flatten h' links = flatten h links.
Proof.
  intros Hk Hall. unfold flatten. f_equal.
  apply Forall_fmap_ext. eapply Forall_impl; [exact Hall |].
  intros v. by apply items_of_keeps.
Qed.

Lemma flatten_app h xs ys : flatten h (xs ++ ys) = flatten h xs ++ flatten h ys.
Proof. unfold flatten. by rewrite fmap_app, concat_app. Qed.

(** An object that is not in the heap is no allocated argument. *)
Lemma allocated_readable h a v : h !! a = None → allocated h v → readable h a v.
Proof.
  intros Ha. destruct v; try done. simpl. intros Hb. split; [| done].
  intros Heq. rewrite Heq, Ha in Hb. by destruct Hb.
Qed.

(** Adding one argument keeps the items that the target has, in front. *)
Lemma add_one_prefix a v s r s' old :
  heap s !! a = Some old →
  add_one a v s = (r, s') →
  ∃ extra, heap s' !! a = Some (old ++ extra).
Proof.
  intros Ha. unfold add_one, list_extend, list_append, bind, lift.
  destruct (is_iterable v); [destruct (py_iter v (heap s)) as [items | |] |];
    simpl; rewrite ?Ha; intros [= <- <-]; simpl;
    rewrite ?lookup_insert_eq; eauto.
  all: exists []; by rewrite app_nil_r.
Qed.

Lemma for_each_prefix a links : ∀ s r s' old,
  heap s !! a = Some old →
  for_each links (add_one a) s = (r, s') →
  ∃ extra, heap s' !! a = Some (old ++ extra).
Proof.
  induction links as [| v links IH]; intros s r s' old Ha; simpl.
  - intros [= <- <-]. exists []. by rewrite app_nil_r.
  - unfold bind. destruct (add_one a v s) as [r1 s1] eqn:H1.
    destruct (add_one_prefix _ _ _ _ _ _ Ha H1) as [e1 He1].
    destruct r1 as [[] | e |].
    + intros Hrest. destruct (IH _ _ _ _ He1 Hrest) as [e2 He2].
      exists (e1 ++ e2). by rewrite app_assoc.
    + intros [= <- <-]. eauto.
    + intros [= <- <-]. eauto.
Qed.

(** On a value that is not iterable, [get_links] raises and binds nothing. *)
Lemma get_links_not_iterable s v :
  metadata (doc s) !! METADATA_LINKS_KEY = Some v →
  is_iterable v = false →
  get_links s
  = (Raises TypeError, mkState (doc s) (<[fresh (dom (heap s)) := []]> (heap s))).
Proof. intros Hv Hi. rewrite get_links_unfold, Hv. by destruct v. Qed.

(** When [get_links] returns a list that the entry did not hold, the list is
    a new object and the entry is bound to it. *)
Lemma get_links_new s a s1 :
  get_links s = (Returns a, s1) →
  metadata (doc s) !! METADATA_LINKS_KEY ≠ Some (VList a) →
  heap s !! a = None
  ∧ metadata (doc s1) = <[METADATA_LINKS_KEY := VList a]> (metadata (doc s)).
Proof.
  rewrite get_links_unfold.
  assert (Hnext : heap s !! fresh (dom (<[fresh (dom (heap s)) := []]> (heap s))) = None).
  { destruct (heap s !! fresh (dom (<[fresh (dom (heap s)) := []]> (heap s))))
      as [l|] eqn:Hl; [| done].
    apply kept_by_new_list in Hl. by rewrite fresh_unused_next in Hl. }
  destruct (metadata (doc s) !! METADATA_LINKS_KEY) as [v|] eqn:Hv;
    [destruct v |]; simpl; intros [= <- <-] Hne; simpl; try done.
  split; [apply fresh_unused | done].
Qed.

(** X1: when the entry under "links" is bound to a value that is not
    iterable, [add_links] raises the [TypeError] of [get_links] whatever the
    arguments are, before any of them is read: nothing is added, the
    document is as it was and every list object keeps its items. *)
Theorem add_links_raises_on_non_iterable s v links :
  metadata (doc s) !! METADATA_LINKS_KEY = Some v →
  is_iterable v = false →
  ∃ s',
    add_links links s = (Raises TypeError, s')
    ∧ doc s' = doc s
    ∧ keeps (heap s) (heap s').
Proof.
  intros Hv Hi. rewrite add_links_unfold. unfold bind.
  rewrite (get_links_not_iterable s v Hv Hi).
  eexists. split; [reflexivity |]. split; [done |]. apply keeps_new_list.
Qed.

Lemma add_links_raises_on_non_iterable_witness :
  metadata (doc broken) !! METADATA_LINKS_KEY = Some (VInt 7)
  ∧ is_iterable (VInt 7) = false
  ∧ ∃ s',
      add_links [sample_in; VTuple [sample_out; sample_kw]] broken
      = (Raises TypeError, s')
      ∧ doc s' = doc broken
      ∧ keeps (heap broken) (heap s').
Proof.
  split_and!; [reflexivity | reflexivity |].
  apply (add_links_raises_on_non_iterable broken (VInt 7)); reflexivity.
Defined.

(** X2: when "links" is bound to a list, [add_links] never removes or
    reorders what the list holds: for all arguments and whatever the
    outcome, the entry is still bound to the same list and the former items
    are the first items of the list, in their order. *)
Theorem add_links_keeps_prefix s a old links :
  metadata (doc s) !! METADATA_LINKS_KEY = Some (VList a) →
  heap s !! a = Some old →
  doc (add_links links s).2 = doc s
  ∧ ∃ extra, heap (add_links links s).2 !! a = Some (old ++ extra).
Proof.
  intros Hv Ha. rewrite add_links_unfold. unfold bind.
  rewrite (get_links_again s a Hv).
  destruct (for_each links (add_one a) _) as [r s'] eqn:Hloop.
  pose proof (for_each_frame _ _ _ _ _ Hloop) as [Hd _].
  apply (for_each_prefix a links _ _ _ old) in Hloop as [extra He];
    [| by apply kept_by_new_list].
  assert (doc s' = doc s ∧ ∃ extra, heap s' !! a = Some (old ++ extra)) as Hres
    by eauto.
  by destruct r.
Qed.

Lemma add_links_keeps_prefix_witness :
  metadata (doc linked) !! METADATA_LINKS_KEY = Some (VList 1%positive)
  ∧ heap linked !! 1%positive = Some [sample_out]
  ∧ doc (add_links [sample_in; VList 1%positive; VStr "ab"] linked).2 = doc linked
  ∧ ∃ extra,
      heap (add_links [sample_in; VList 1%positive; VStr "ab"] linked).2 !! 1%positive
      = Some ([sample_out] ++ extra).
Proof.
  split; [reflexivity |]. split; [reflexivity |].
  apply (add_links_keeps_prefix linked 1%positive [sample_out]); reflexivity.
Defined.

(** X3: an argument that is the document's own list of links is read when
    its turn comes: after the arguments before it, it doubles what the list
    then holds. *)
Theorem add_links_own_list_doubles s a old pre :
  metadata (doc s) !! METADATA_LINKS_KEY = Some (VList a) →
  heap s !! a = Some old →
  Forall (readable (heap s) a) pre →
  ∃ s',
    add_links (pre ++ [VList a]) s = (Returns tt, s')
    ∧ doc s' = doc s
    ∧ heap s' !! a
      = Some ((old ++ flatten (heap s) pre) ++ (old ++ flatten (heap s) pre)).
Proof.
  intros Hv Ha Hpre. rewrite add_links_unfold. unfold bind.
  rewrite (get_links_again s a Hv), for_each_app.
  pose proof (keeps_new_list s) as Hk.
  rewrite (for_each_add_one (doc s) a pre _ old (Hk _ _ Ha)).
  2: { eapply Forall_impl; [exact Hpre |]. intros v. by apply readable_keeps. }
  rewrite (flatten_keeps (heap s) _ pre Hk).
  2: { eapply Forall_impl; [exact Hpre |]. intros v. apply readable_allocated. }
  simpl. unfold bind, add_one, list_extend, bind, lift; simpl.
  rewrite lookup_insert_eq; simpl.
  eexists. split; [reflexivity |]. simpl. by rewrite lookup_insert_eq.
Qed.

Lemma add_links_own_list_doubles_witness :
  metadata (doc linked) !! METADATA_LINKS_KEY = Some (VList 1%positive)
  ∧ heap linked !! 1%positive = Some [sample_out]
  ∧ Forall (readable (heap linked) 1%positive) [sample_in; VList 2%positive]
  ∧ ∃ s',
      add_links [sample_in; VList 2%positive; VList 1%positive] linked = (Returns tt, s')
      ∧ doc s' = doc linked
      ∧ heap s' !! 1%positive
        = Some [sample_out; sample_in; sample_in; sample_bidir;
                sample_out; sample_in; sample_in; sample_bidir].
Proof.
  assert (Hall : Forall (readable (heap linked) 1%positive) [sample_in; VList 2%positive]).
  { repeat constructor; [discriminate | by eexists]. }
  split_and!; [reflexivity | reflexivity | exact Hall |].
  exact (add_links_own_list_doubles linked 1%positive [sample_out]
           [sample_in; VList 2%positive] eq_refl eq_refl Hall).
Defined.

(** X4: on a document without an entry under "links", [add_links] followed
    by [get_links] gives a list that holds exactly the arguments flattened
    by one level, in order; the list is a new object, bound under "links",
    and the rest of the metadata is as before. *)
Theorem add_links_then_get_links s links :
  metadata (doc s) !! METADATA_LINKS_KEY = None →
  Forall (allocated (heap s)) links →
  ∃ a s1 s2,
    add_links links s = (Returns tt, s1)
    ∧ get_links s1 = (Returns a, s2)
    ∧ heap s2 !! a = Some (flatten (heap s) links)
    ∧ metadata (doc s2) = <[METADATA_LINKS_KEY := VList a]> (metadata (doc s))
    ∧ heap s !! a = None.
Proof.
  intros Hv Hall.
  destruct (get_links s) as [r s0] eqn:Hg.
  pose proof Hg as Hg'. rewrite get_links_unfold, Hv in Hg'.
  injection Hg' as <- <-. set (a := fresh (dom (heap s))) in *.
  assert (Hnew : heap s !! a = None) by apply fresh_unused.
  pose proof (add_links_spec s a _ [] links Hg) as Hadd. simpl in Hadd.
  rewrite lookup_insert_eq in Hadd. specialize (Hadd eq_refl).
  eexists a, _, _. split.
  { apply Hadd. eapply Forall_impl; [exact Hall |].
    intros v. by apply allocated_readable. }
  split.
  { apply get_links_again. simpl. by rewrite lookup_insert_eq. }
  simpl. split_and!; [| done | done].
  rewrite lookup_insert_ne; [by rewrite lookup_insert_eq |].
  intros Heq. pose proof (fresh_unused
    (mkState (mkDocument (page_content (doc s))
                (<[METADATA_LINKS_KEY := VList a]> (metadata (doc s))))
             (<[a := flatten (heap s) links]> (<[a := []]> (heap s))))) as Hf.
  simpl in Hf. rewrite Heq, lookup_insert_eq in Hf. discriminate.
Qed.

Lemma add_links_then_get_links_witness :
  metadata (doc blank) !! METADATA_LINKS_KEY = None
  ∧ Forall (allocated (heap blank)) [sample_out; VTuple [sample_in; sample_kw]]
  ∧ ∃ a s1 s2,
      add_links [sample_out; VTuple [sample_in; sample_kw]] blank = (Returns tt, s1)
      ∧ get_links s1 = (Returns a, s2)
      ∧ heap s2 !! a = Some [sample_out; sample_in; sample_kw]
      ∧ metadata (doc s2) = <[METADATA_LINKS_KEY := VList a]> (metadata (doc blank))
      ∧ heap blank !! a = None.
Proof.
  assert (Hall : Forall (allocated (heap blank)) [sample_out; VTuple [sample_in; sample_kw]])
    by (repeat constructor).
  split_and!; [reflexivity | exact Hall |].
  exact (add_links_then_get_links blank _ eq_refl Hall).
Defined.

(** X5: two calls of [add_links] leave the document and its list of links
    as one call with the arguments of the first followed by those of the
    second. *)
Theorem add_links_twice_as_once s a s0 old xs ys :
  get_links s = (Returns a, s0) →
  heap s0 !! a = Some old →
  Forall (readable (heap s) a) xs →
  Forall (readable (heap s) a) ys →
  ∃ s1 s2 s12,
    add_links xs s = (Returns tt, s1)
    ∧ add_links ys s1 = (Returns tt, s2)
    ∧ add_links (xs ++ ys) s = (Returns tt, s12)
    ∧ doc s2 = doc s12
    ∧ heap s2 !! a = heap s12 !! a
    ∧ heap s12 !! a = Some (old ++ flatten (heap s) xs ++ flatten (heap s) ys).
Proof.
  intros Hg Ha Hxs Hys.
  pose proof (get_links_frame _ _ _ Hg) as (_ & _ & Hk0).
  pose proof (get_links_entry _ _ _ Hg) as Hentry.
  pose proof (add_links_spec s a s0 old xs Hg Ha Hxs) as H1.
  pose proof (add_links_spec s a s0 old (xs ++ ys) Hg Ha) as H12.
  rewrite Forall_app in H12. specialize (H12 (conj Hxs Hys)).
  set (s1 := mkState (doc s0) (<[a := old ++ flatten (heap s) xs]> (heap s0))) in *.
  assert (Hys1 : Forall (readable (heap s1) a) ys).
  { eapply Forall_impl; [exact Hys |]. intros v Hv.
    apply readable_insert. by apply (readable_keeps (heap s)). }
  assert (Hfl : flatten (heap s1) ys = flatten (heap s) ys).
  { unfold flatten. f_equal. apply Forall_fmap_ext.
    eapply Forall_impl; [exact Hys |]. intros v Hv. simpl.
    rewrite items_of_insert by by apply (readable_keeps (heap s)).
    apply items_of_keeps; [done | by apply (readable_allocated _ a)]. }
  pose proof (get_links_again s1 a Hentry) as Hg1.
  pose proof (add_links_spec s1 a _ (old ++ flatten (heap s) xs) ys Hg1) as H2.
  rewrite Hfl in H2. simpl in H2. rewrite lookup_insert_ne, lookup_insert_eq in H2.
  2: { intros Heq. pose proof (fresh_unused s1) as Hf. simpl in Hf.
       rewrite Heq, lookup_insert_eq in Hf. discriminate. }
  specialize (H2 eq_refl Hys1).
  eexists _, _, _. split_and!; [exact H1 | exact H2 | exact H12 | done | |].
  - simpl. by rewrite !lookup_insert_eq, flatten_app, app_assoc.
  - simpl. by rewrite lookup_insert_eq, flatten_app.
Qed.

Lemma add_links_twice_as_once_witness :
  ∃ s1 s2 s12,
    add_links [sample_kw; VList 2%positive] linked = (Returns tt, s1)
    ∧ add_links [VTuple [sample_out]; sample_in] s1 = (Returns tt, s2)
    ∧ add_links ([sample_kw; VList 2%positive] ++ [VTuple [sample_out]; sample_in]) linked
      = (Returns tt, s12)
    ∧ doc s2 = doc s12
    ∧ heap s2 !! 1%positive = heap s12 !! 1%positive
    ∧ heap s12 !! 1%positive
      = Some [sample_out; sample_kw; sample_in; sample_bidir; sample_out; sample_in].
Proof.
  assert (Hg : get_links linked
               = (Returns 1%positive,
                  mkState (doc linked) (<[3%positive := []]> (heap linked))))
    by (vm_compute; reflexivity).
  assert (Hxs : Forall (readable (heap linked) 1%positive) [sample_kw; VList 2%positive]).
  { repeat constructor; [discriminate | by eexists]. }
  assert (Hys : Forall (readable (heap linked) 1%positive) [VTuple [sample_out]; sample_in])
    by (repeat constructor).
  exact (add_links_twice_as_once linked 1%positive _ [sample_out] _ _ Hg eq_refl Hxs Hys).
Defined.

Lemma flatten_scalars h items :
  Forall (λ v, is_iterable v = false) items → flatten h items = items.
Proof.
  induction 1 as [| v items Hv _ IH]; [done |].
  unfold flatten in *; simpl. unfold items_of at 1. rewrite Hv; simpl. by f_equal.
Qed.

Lemma chars_length str : length (chars str) = String.length str.
Proof. induction str as [| c str IH]; simpl; [done | by f_equal]. Qed.

Lemma chars_single str : Forall (λ v, ∃ c, v = VStr (String c EmptyString)) (chars str).
Proof. induction str as [| c str IH]; simpl; constructor; eauto. Qed.

(** X6: flattening is by one level only.  A tuple argument adds its items
    as they are, whatever they are (an item that is itself a tuple is added
    whole); and values that are not iterable add the same items whether
    they are passed in one tuple or as separate arguments. *)
Theorem add_links_one_level s a s0 old items :
  get_links s = (Returns a, s0) →
  heap s0 !! a = Some old →
  (∃ s1,
      add_links [VTuple items] s = (Returns tt, s1)
      ∧ heap s1 !! a = Some (old ++ items))
  ∧ (Forall (λ v, is_iterable v = false) items →
     ∃ s1,
       add_links items s = (Returns tt, s1)
       ∧ heap s1 !! a = Some (old ++ items)).
Proof.
  intros Hg Ha. split.
  - eexists. split.
    + apply (add_links_spec s a s0 old); [done | done |]. by repeat constructor.
    + simpl. rewrite lookup_insert_eq. unfold flatten, items_of; simpl.
      by rewrite app_nil_r.
  - intros Hsc. eexists. split.
    + apply (add_links_spec s a s0 old); [done | done |].
      eapply Forall_impl; [exact Hsc |]. by intros [].
    + simpl. by rewrite lookup_insert_eq, flatten_scalars.
Qed.

Lemma add_links_one_level_witness :
  (∃ s1,
      add_links [VTuple [sample_in; VTuple [sample_kw; sample_out]]] linked
      = (Returns tt, s1)
      ∧ heap s1 !! 1%positive
        = Some [sample_out; sample_in; VTuple [sample_kw; sample_out]])
  ∧ Forall (λ v, is_iterable v = false) [sample_in; sample_kw]
  ∧ (∃ s1,
        add_links [VTuple [sample_in; sample_kw]] linked = (Returns tt, s1)
        ∧ heap s1 !! 1%positive = Some [sample_out; sample_in; sample_kw])
  ∧ (∃ s1,
        add_links [sample_in; sample_kw] linked = (Returns tt, s1)
        ∧ heap s1 !! 1%positive = Some [sample_out; sample_in; sample_kw]).
Proof.
  assert (Hg : get_links linked
               = (Returns 1%positive,
                  mkState (doc linked) (<[3%positive := []]> (heap linked))))
    by (vm_compute; reflexivity).
  assert (Hsc : Forall (λ v, is_iterable v = false) [sample_in; sample_kw])
    by (repeat constructor).
  split_and!.
  - exact (proj1 (add_links_one_level linked 1%positive _ [sample_out]
                    [sample_in; VTuple [sample_kw; sample_out]] Hg eq_refl)).
  - exact Hsc.
  - exact (proj1 (add_links_one_level linked 1%positive _ [sample_out]
                    [sample_in; sample_kw] Hg eq_refl)).
  - exact (proj2 (add_links_one_level linked 1%positive _ [sample_out]
                    [sample_in; sample_kw] Hg eq_refl) Hsc).
Defined.

(** X7: a string argument counts as an iterable: [add_links] does not add
    the string but its characters, one item of length one per character, so
    as many items as the string is long (none for the empty string). *)
Theorem add_links_splits_str s a s0 old str :
  get_links s = (Returns a, s0) →
  heap s0 !! a = Some old →
  ∃ s1,
    add_links [VStr str] s = (Returns tt, s1)
    ∧ heap s1 !! a = Some (old ++ chars str)
    ∧ length (chars str) = String.length str
    ∧ Forall (λ v, ∃ c, v = VStr (String c EmptyString)) (chars str).
Proof.
  intros Hg Ha. eexists. split.
  - apply (add_links_spec s a s0 old); [done | done |]. by repeat constructor.
  - simpl. rewrite lookup_insert_eq. unfold flatten, items_of; simpl.
    rewrite app_nil_r. split_and!; [done | apply chars_length | apply chars_single].
Qed.

Lemma add_links_splits_str_witness :
  ∃ s1,
    add_links [VStr "url"] linked = (Returns tt, s1)
    ∧ heap s1 !! 1%positive = Some ([sample_out] ++ [VStr "u"; VStr "r"; VStr "l"])
    ∧ length (chars "url") = String.length "url"
    ∧ Forall (λ v, ∃ c, v = VStr (String c EmptyString)) (chars "url").
Proof.
  assert (Hg : get_links linked
               = (Returns 1%positive,
                  mkState (doc linked) (<[3%positive := []]> (heap linked))))
    by (vm_compute; reflexivity).
  exact (add_links_splits_str linked 1%positive _ [sample_out] "url" Hg eq_refl).
Defined.

(** X8: when the entry under "links" is an iterable that is not a list,
    [add_links] first rebinds the entry to a new list with the items of the
    iterable, then adds the flattened arguments after them; the value that
    was bound before is not the list that grows. *)
Theorem add_links_converts_then_appends s v items links :
  metadata (doc s) !! METADATA_LINKS_KEY = Some v →
  is_list v = false →
  py_iter v (heap s) = Returns items →
  Forall (allocated (heap s)) links →
  ∃ a s1,
    add_links links s = (Returns tt, s1)
    ∧ metadata (doc s1) = <[METADATA_LINKS_KEY := VList a]> (metadata (doc s))
    ∧ heap s1 !! a = Some (items ++ flatten (heap s) links)
    ∧ heap s !! a = None
    ∧ keeps (heap s) (heap s1).
Proof.
  intros Hv Hl Hit Hall.
  destruct (get_links s) as [r s0] eqn:Hg.
  pose proof (get_links_frame _ _ _ Hg) as (_ & _ & Hk).
  pose proof Hg as Hg'. rewrite get_links_unfold, Hv in Hg'.
  rewrite (py_iter_not_list v _ (heap s) Hl), Hit in Hg'.
  assert (∃ a, r = Returns a ∧ heap s0 !! a = Some items) as (a & -> & Ha).
  { destruct v; try discriminate; injection Hg' as <- <-; simpl;
      eexists; by rewrite lookup_insert_eq. }
  destruct (get_links_new s a s0 Hg) as [Hnew Hmd].
  { rewrite Hv. intros [= ->]. discriminate. }
  eexists a, _. split.
  { apply (add_links_spec s a s0 items); [done | done |].
    eapply Forall_impl; [exact Hall |]. intros x. by apply allocated_readable. }
  simpl. rewrite lookup_insert_eq. split_and!; try done.
  intros b l Hb. rewrite lookup_insert_ne; [by apply Hk |].
  intros <-. congruence.
Qed.

Lemma add_links_converts_then_appends_witness :
  ∃ a s1,
    add_links [sample_kw; VTuple [sample_bidir]] tupled = (Returns tt, s1)
    ∧ metadata (doc s1) = <[METADATA_LINKS_KEY := VList a]> (metadata (doc tupled))
    ∧ heap s1 !! a = Some ([sample_out; sample_in] ++ [sample_kw; sample_bidir])
    ∧ heap tupled !! a = None
    ∧ keeps (heap tupled) (heap s1).
Proof.
  apply (add_links_converts_then_appends tupled (VTuple [sample_out; sample_in])
           [sample_out; sample_in] [sample_kw; VTuple [sample_bidir]]);
    [reflexivity | reflexivity | reflexivity | repeat constructor].
Defined.

(** ** Further results on the dataclass *)

(** What a call that returns was given. *)
Lemma init_returns_inv args kwargs l :
  GraphStoreLink_init args kwargs = Returns l →
  (length args ≤ 3)%nat
  ∧ (∀ i f, GraphStoreLink_fields !! i = Some f → (i < length args)%nat →
            kwargs !! f = None)
  ∧ (∀ k, k ∉ GraphStoreLink_fields → kwargs !! k = None).
Proof.
  unfold GraphStoreLink_init, GraphStoreLink_fields.
  assert (Hrest : ∀ (m : gmap string string) k, m = ∅ → m !! k = None)
    by (by intros m k ->).
  destruct args as [| a1 [| a2 [| a3 [| a4 rest]]]]; simpl;
    repeat match goal with
      | |- context [ delete ?p ?m !! ?q ] =>
          rewrite (lookup_delete_ne m p q) by done
      | |- context [ ?m !! ?p ] =>
          lazymatch m with
          | delete _ _ => fail
          | _ => destruct (m !! p) eqn:?; simpl
          end
      | |- context [ decide ?P ] => destruct (decide P) as [Hempty | ?]; simpl
      end;
    try discriminate; intros _; (split; [lia |]); split.
  all: try (intros [| [| [| i]]] f Hf Hi; simpl in *; try lia; try done;
            injection Hf as <-; done).
  all: intros k Hk; apply (Hrest _ k) in Hempty;
    repeat (rewrite lookup_delete_ne in Hempty
              by (intros <-; apply Hk; repeat constructor));
    done.
Qed.

(** A map is empty once the three fields are deleted, when it binds nothing
    else. *)
Lemma no_keyword_left (m : gmap string string) :
  (∀ k, k ∉ GraphStoreLink_fields → m !! k = None) →
  delete "tag" (delete "direction" (delete "kind" m)) = ∅.
Proof.
  intros Hunk. apply map_empty. intros k.
  destruct (decide (k = "tag")) as [-> | ?]; [by rewrite lookup_delete_eq |].
  rewrite lookup_delete_ne by done.
  destruct (decide (k = "direction")) as [-> | ?]; [by rewrite lookup_delete_eq |].
  rewrite lookup_delete_ne by done.
  destruct (decide (k = "kind")) as [-> | ?]; [by rewrite lookup_delete_eq |].
  rewrite lookup_delete_ne by done.
  apply Hunk. unfold GraphStoreLink_fields.
  rewrite !not_elem_of_cons. split_and!; try done. apply not_elem_of_nil.
Qed.

(** X9: the call [GraphStoreLink(...)] returns exactly when at most three
    positional arguments are given, no field is given both by position and
    by keyword, every field not given by position is given by keyword, and
    no other keyword is passed; every other call raises [TypeError]. *)
Theorem init_returns_iff args kwargs :
  ((∃ l, GraphStoreLink_init args kwargs = Returns l)
   ↔ (length args ≤ 3)%nat
     ∧ (∀ i f, GraphStoreLink_fields !! i = Some f → (i < length args)%nat →
               kwargs !! f = None)
     ∧ (∀ i f, GraphStoreLink_fields !! i = Some f → (length args ≤ i)%nat →
               is_Some (kwargs !! f))
     ∧ (∀ k, k ∉ GraphStoreLink_fields → kwargs !! k = None))
  ∧ ((∀ l, GraphStoreLink_init args kwargs ≠ Returns l)
     → GraphStoreLink_init args kwargs = Raises TypeError).
Proof.
  split.
  2: { intros Hno. destruct (init_outcome args kwargs) as [[l Hl] | Hr]; [| done].
       by destruct (Hno l). }
  split.
  - intros [l Hl]. pose proof (init_returns_inv _ _ _ Hl) as (Hlen & Hpos & Hunk).
    pose proof (init_supplied _ _ _ Hl) as (H0 & H1 & H2).
    split_and!; [done | done | | done].
    intros i f Hf Hi. unfold supplied in *.
    assert (Hnone : args !! i = None) by by apply lookup_ge_None.
    destruct i as [| [| [| i]]]; simpl in Hf; [| | | done]; injection Hf as <-.
    + rewrite Hnone in H0. eauto.
    + rewrite Hnone in H1. eauto.
    + rewrite Hnone in H2. eauto.
  - intros (Hlen & Hpos & Hkw & Hunk).
    pose proof (no_keyword_left kwargs Hunk) as Hempty.
    unfold GraphStoreLink_init, GraphStoreLink_fields in *.
    destruct args as [| a1 [| a2 [| a3 [| a4 rest]]]]; simpl in *; [| | | | lia].
    + destruct (Hkw 0%nat "kind" eq_refl ltac:(lia)) as [k Hk].
      destruct (Hkw 1%nat "direction" eq_refl ltac:(lia)) as [d Hd].
      destruct (Hkw 2%nat "tag" eq_refl ltac:(lia)) as [t Ht].
      rewrite Hk; simpl. rewrite lookup_delete_ne, Hd by done; simpl.
      rewrite !lookup_delete_ne, Ht by done; simpl.
      rewrite decide_True by done. simpl. eauto.
    + pose proof (Hpos 0%nat "kind" eq_refl ltac:(lia)) as Hk.
      destruct (Hkw 1%nat "direction" eq_refl ltac:(lia)) as [d Hd].
      destruct (Hkw 2%nat "tag" eq_refl ltac:(lia)) as [t Ht].
      rewrite (delete_id kwargs "kind") in Hempty by done.
      rewrite Hk, Hd; simpl. rewrite lookup_delete_ne, Ht by done; simpl.
      rewrite decide_True by done. simpl. eauto.
    + pose proof (Hpos 0%nat "kind" eq_refl ltac:(lia)) as Hk.
      pose proof (Hpos 1%nat "direction" eq_refl ltac:(lia)) as Hd.
      destruct (Hkw 2%nat "tag" eq_refl ltac:(lia)) as [t Ht].
      rewrite (delete_id kwargs "kind"), (delete_id kwargs "direction") in Hempty by done.
      rewrite Hk, Hd, Ht; simpl.
      rewrite decide_True by done. simpl. eauto.
    + pose proof (Hpos 0%nat "kind" eq_refl ltac:(lia)) as Hk.
      pose proof (Hpos 1%nat "direction" eq_refl ltac:(lia)) as Hd.
      pose proof (Hpos 2%nat "tag" eq_refl ltac:(lia)) as Ht.
      rewrite (delete_id kwargs "kind"), (delete_id kwargs "direction"),
        (delete_id kwargs "tag") in Hempty by done.
      rewrite Hk, Hd, Ht; simpl.
      rewrite decide_True by done. simpl. eauto.
Qed.

Lemma factories_value k t :
  incoming k t = Returns (mkGraphStoreLink k "in" t)
  ∧ outgoing k t = Returns (mkGraphStoreLink k "out" t)
  ∧ bidir k t = Returns (mkGraphStoreLink k "bidir" t).
Proof. split_and!; reflexivity. Qed.

(** X10: a link made by a factory has the kind and the tag it was given and
    a direction among "in", "out" and "bidir"; the same factory gives equal
    links only for the same kind and tag, and links made by two different
    factories are never equal for [__eq__], whatever their kinds and tags. *)
Theorem factories_valid_and_distinct :
  (∀ k t l,
      incoming k t = Returns l ∨ outgoing k t = Returns l ∨ bidir k t = Returns l →
      valid_direction (direction l) = true ∧ kind l = k ∧ tag l = t)
  ∧ (∀ k t k' t',
        (incoming k t = incoming k' t' ↔ k = k' ∧ t = t')
        ∧ (outgoing k t = outgoing k' t' ↔ k = k' ∧ t = t')
        ∧ (bidir k t = bidir k' t' ↔ k = k' ∧ t = t'))
  ∧ (∀ k t k' t' a b,
        (incoming k t = Returns a ∧ outgoing k' t' = Returns b)
        ∨ (incoming k t = Returns a ∧ bidir k' t' = Returns b)
        ∨ (outgoing k t = Returns a ∧ bidir k' t' = Returns b) →
        GraphStoreLink_eq a b = false ∧ GraphStoreLink_eq b a = false).
Proof.
  split_and!.
  - intros k t l. destruct (factories_value k t) as (-> & -> & ->).
    by intros [[= <-] | [[= <-] | [= <-]]].
  - intros k t k' t'.
    destruct (factories_value k t) as (-> & -> & ->).
    destruct (factories_value k' t') as (-> & -> & ->).
    split_and!; (split; [by intros [= -> ->] | by intros [-> ->]]).
  - intros k t k' t' a b.
    destruct (factories_value k t) as (-> & -> & _).
    destruct (factories_value k' t') as (_ & -> & ->).
    intros [[[= <-] [= <-]] | [[[= <-] [= <-]] | [[= <-] [= <-]]]];
      unfold GraphStoreLink_eq; simpl;
      by rewrite ?andb_false_r.
Qed.

Lemma factories_valid_and_distinct_witness :
  (valid_direction "out" = true ∧ "kw" = "kw" ∧ "rocq" = "rocq")
  ∧ GraphStoreLink_eq (mkGraphStoreLink "kw" "in" "rocq")
                      (mkGraphStoreLink "kw" "out" "rocq") = false.
Proof.
  split.
  - exact (proj1 factories_valid_and_distinct "kw" "rocq"
             (mkGraphStoreLink "kw" "out" "rocq") (or_intror (or_introl eq_refl))).
  - exact (proj1 (proj2 (proj2 factories_valid_and_distinct)
                    "kw" "rocq" "kw" "rocq" _ _ (or_introl (conj eq_refl eq_refl)))).
Defined.
